(** * Hosting-capacity simulation core of [scroll-story-app/src/App.tsx]

    The development embeds the numeric helpers of [App.tsx]:
    [buildReverseFlowSeries], [calculateMonthlyStats],
    [calculateAnnualCurtailmentPct] and the one-pass annual loop of
    [generatePlot] (case 6), and states the properties of the specification
    over them.  It then covers the numeric parts of the plot builders:
    [filterDataByDate], the worst-hour annotation of [generatePlot], the
    series of [generateMultiDayPlot] and the percentages of the annual
    comparison.

    Modelling conventions.
    - A [Date] is its time value [getTime()], a [Z] number of milliseconds;
      the series hold valid dates only.
    - The aggregator is embedded twice.  Module [F64] is the program as it
      runs: every [number] is an IEEE 754 binary64 value with its rounding,
      infinities and [NaN].  Statements on sums taken in different orders
      and on quotients are made there, since rounding decides them.  The
      definitions outside [F64] read the same code over exact rationals
      [Q]; they carry the statements on signs, order and alignment, which
      the monotone, sign-preserving rounding of binary64 keeps, and the
      statements that are explicitly about exact arithmetic.  Where the
      exact division leaves the finite numbers its result is a [number]
      with the three non-finite values.
    - In [buildReverseFlowSeries] the crossing time is computed exactly and
      then truncated; the program truncates the rounded binary64 value,
      which can be one millisecond lower.  Apart from the midpoint case,
      where the computation is exact in binary64, no statement below
      depends on the value of a crossing time.
    - [Date.prototype.getMonth] depends on the time zone of the host; it is a
      parameter [getMonth] of the development, and [getUTCMonth] is the
      instance of a host running in UTC. *)

From Stdlib Require Import ZArith QArith Qminmax List Bool Lia Lqa.
From Stdlib Require Import Floats Permutation.
Import ListNotations.

Open Scope Z_scope.

(** ** Data model *)

Module LoadData.
Record t : Type := mk { timestamp : Z; net_load_mw : Q }.
End LoadData.

Module SolarData.
Record t : Type := mk { timestamp : Z; ac_kw_per_kwdc : Q }.
End SolarData.

Record MonthlyData : Type := mkMonthlyData {
  month : Z;
  productionMWh : Q;
  curtailmentMWh : Q
}.

(** ** JavaScript numbers *)

(** Result of a division: a finite value, or one of the non-finite ones. *)
Inductive number : Type :=
| Finite (q : Q)
| Infinity
| NegInfinity
| NaN.

Definition Qltb (a b : Q) : bool := negb (Qle_bool b a).

(** [a / b] on finite operands. *)
Definition jsdiv (a b : Q) : number :=
  if Qeq_bool b 0 then
    if Qltb 0 a then Infinity
    else if Qltb a 0 then NegInfinity
    else NaN
  else Finite (a / b)%Q.

(** [new Date(v).getTime()] for a finite [v]: the fraction is dropped,
    towards zero. *)
Definition timeClip (v : Q) : Z := Z.quot (Qnum v) (Z.pos (Qden v)).

(** ** Calendar month of a host running in UTC *)

Definition msPerDay : Z := 86400000.

Definition getUTCMonth (t : Z) : Z :=
  let days := t / msPerDay in
  let z := days + 719468 in
  let era := z / 146097 in
  let doe := z - era * 146097 in
  let yoe := (doe - doe / 1460 + doe / 36524 - doe / 146096) / 365 in
  let doy := doe - (365 * yoe + yoe / 4 - yoe / 100) in
  let mp := (5 * doy + 2) / 153 in
  (mp + 2) mod 12.

(** ** Zero-crossing interpolator: [buildReverseFlowSeries] *)

(** [v <= 0] and [v > 0] where [v] may be [undefined] ([None]): a comparison
    with [undefined] is false. *)
Definition le0 (v : option Q) : bool :=
  match v with Some q => Qle_bool q 0 | None => false end.

(** [y <= 0 ? y : null]; [None] is [null] in the output. *)
Definition keepReverse (v : option Q) : option Q :=
  if le0 v then v else None.

Definition Series : Type := (list (option Z) * list (option Q))%type.

(** [a[i]]: [undefined] ([None]) outside the array. *)
Definition get {A : Type} (a : list A) (i : Z) : option A :=
  if i <? 0 then None else nth_error a (Z.to_nat i).

(** One iteration of the [for] loop, at index [i].  [None] is the
    [TypeError] of [getTime] on [undefined]. *)
Definition reverseFlowStep (x : list Z) (y : list Q) (out : Series) (i : Z)
  : option Series :=
  let '(xOut, yOut) := out in
  let x0 := get x i in
  let x1 := get x (i + 1) in
  let y0 := get y i in
  let y1 := get y (i + 1) in
  (* always keep original point *)
  let xOut := xOut ++ [x0] in
  let yOut := yOut ++ [keepReverse y0] in
  match y0, y1 with
  | Some b0, Some b1 =>
      (* sign change across zero? *)
      let crossesZero :=
        (Qle_bool b0 0 && Qltb 0 b1) || (Qltb 0 b0 && Qle_bool b1 0) in
      if crossesZero && negb (Qeq_bool b1 b0) then
        match x0, x1 with
        | Some t0, Some t1 =>
            let frac := (- b0 / (b1 - b0))%Q in
            let tCross :=
              timeClip (inject_Z t0 + (inject_Z t1 - inject_Z t0) * frac)%Q in
            Some (xOut ++ [Some tCross], yOut ++ [Some 0%Q])
        | _, _ => None
        end
      else Some (xOut, yOut)
  | _, _ =>
      (* a comparison with [undefined] is false: no crossing *)
      Some (xOut, yOut)
  end.

Fixpoint reverseFlowLoop (x : list Z) (y : list Q) (idx : list Z)
  (out : Series) : option Series :=
  match idx with
  | [] => Some out
  | i :: rest =>
      match reverseFlowStep x y out i with
      | Some out' => reverseFlowLoop x y rest out'
      | None => None
      end
  end.

(** The indices [0 <= i < n] in increasing order; none when [n <= 0]. *)
Definition upto (n : Z) : list Z := map Z.of_nat (seq 0 (Z.to_nat n)).

Definition buildReverseFlowSeries (x : list Z) (y : list Q) : option Series :=
  let len := Z.of_nat (length x) in
  match reverseFlowLoop x y (upto (len - 1)) ([], []) with
  | Some (xOut, yOut) =>
      (* last original point *)
      let lastIdx := len - 1 in
      Some (xOut ++ [get x lastIdx], yOut ++ [keepReverse (get y lastIdx)])
  | None => None
  end.

(** ** Time aligner and aggregator: [calculateMonthlyStats] *)

(** The predicate of [loadData.find]. *)
Definition withinTolerance (s : SolarData.t) (l : LoadData.t) : bool :=
  Z.abs (LoadData.timestamp l - SolarData.timestamp s) <? 3600000.

Definition matchingLoad (loadData : list LoadData.t) (s : SolarData.t)
  : option LoadData.t :=
  find (withinTolerance s) loadData.

(** The clipping of one solar sample, shared by [calculateMonthlyStats] and
    the annual loop of [generatePlot]: the accumulators after the sample. *)
Definition accumulate (loadData : list LoadData.t) (size thermalLimit : Q)
  (acc : Q * Q) (s : SolarData.t) : Q * Q :=
  let '(production, curtailment) := acc in
  let outputRaw := (SolarData.ac_kw_per_kwdc s * size)%Q in
  match matchingLoad loadData s with
  | Some l =>
      let capacity := (LoadData.net_load_mw l - thermalLimit)%Q in
      let outputFI := Qmin outputRaw capacity in
      ((production + outputFI)%Q, (curtailment + (outputRaw - outputFI))%Q)
  | None => (production, curtailment)
  end.

Section Aggregator.

Variable getMonth : Z -> Z.

(** Body of [solarData.forEach] inside the loop over months. *)
Definition monthStep (loadData : list LoadData.t) (solarSize thermalLimit : Q)
  (m : Z) (acc : Q * Q) (s : SolarData.t) : Q * Q :=
  if getMonth (SolarData.timestamp s) =? m
  then accumulate loadData solarSize thermalLimit acc s
  else acc.

Definition monthTotals (loadData : list LoadData.t)
  (solarData : list SolarData.t) (solarSize thermalLimit : Q) (m : Z) : Q * Q :=
  fold_left (monthStep loadData solarSize thermalLimit m) solarData (0%Q, 0%Q).

Definition calculateMonthlyStats (loadData : list LoadData.t)
  (solarData : list SolarData.t) (solarSize thermalLimit : Q)
  : list MonthlyData :=
  map (fun m =>
         let '(production, curtailment) :=
           monthTotals loadData solarData solarSize thermalLimit m in
         {| month := m;
            productionMWh := production;
            curtailmentMWh := curtailment |})
      (upto 12).

End Aggregator.

(** [monthlyData.reduce((sum, m) => sum + m.productionMWh, 0)] and its
    sibling for curtailment. *)
Definition totalProduction (monthlyData : list MonthlyData) : Q :=
  fold_left (fun sum m => (sum + productionMWh m)%Q) monthlyData 0%Q.

Definition totalCurtailment (monthlyData : list MonthlyData) : Q :=
  fold_left (fun sum m => (sum + curtailmentMWh m)%Q) monthlyData 0%Q.

Definition calculateAnnualCurtailmentPct (monthlyData : list MonthlyData)
  : number :=
  let tp := totalProduction monthlyData in
  let tc := totalCurtailment monthlyData in
  if Qltb 0 tc then jsdiv (100 * tc)%Q (tp + tc)%Q else Finite 0%Q.

(** The one-pass loop of [generatePlot], case 6, for one plant [size]:
    [(totalMWh, curtailedMWh)] before the conversion to GWh. *)
Definition annualTotals (loadData : list LoadData.t)
  (solarData : list SolarData.t) (size THERMAL_LIMIT : Q) : Q * Q :=
  fold_left (accumulate loadData size THERMAL_LIMIT) solarData (0%Q, 0%Q).

(** ** The aggregator in binary64 *)

(** The same functions over IEEE 754 binary64, the [number] of the program:
    every sum, product, difference and quotient is rounded as the code
    rounds it, and overflow gives the infinities and [NaN].  Timestamps stay
    integers: millisecond time values are exact in binary64. *)
Module F64.

Module LoadData.
Record t : Type := mk { timestamp : Z; net_load_mw : float }.
End LoadData.

Module SolarData.
Record t : Type := mk { timestamp : Z; ac_kw_per_kwdc : float }.
End SolarData.

Record MonthlyData : Type := mkMonthlyData {
  month : Z;
  productionMWh : float;
  curtailmentMWh : float
}.

(** [Math.min(a, b)]: [NaN] when an argument is [NaN]; of two zeros the
    negative one. *)
Definition mathMin (a b : float) : float :=
  if is_nan a || is_nan b then nan
  else if (a <? b)%float then a
  else if (b <? a)%float then b
  else if get_sign a then a else b.

Definition withinTolerance (s : SolarData.t) (l : LoadData.t) : bool :=
  Z.abs (LoadData.timestamp l - SolarData.timestamp s) <? 3600000.

Definition matchingLoad (loadData : list LoadData.t) (s : SolarData.t)
  : option LoadData.t :=
  find (withinTolerance s) loadData.

Definition accumulate (loadData : list LoadData.t) (size thermalLimit : float)
  (acc : float * float) (s : SolarData.t) : float * float :=
  let '(production, curtailment) := acc in
  let outputRaw := (SolarData.ac_kw_per_kwdc s * size)%float in
  match matchingLoad loadData s with
  | Some l =>
      let capacity := (LoadData.net_load_mw l - thermalLimit)%float in
      let outputFI := mathMin outputRaw capacity in
      ((production + outputFI)%float,
       (curtailment + (outputRaw - outputFI))%float)
  | None => (production, curtailment)
  end.

Section Aggregator.

Variable getMonth : Z -> Z.

Definition monthStep (loadData : list LoadData.t)
  (solarSize thermalLimit : float) (m : Z) (acc : float * float)
  (s : SolarData.t) : float * float :=
  if getMonth (SolarData.timestamp s) =? m
  then accumulate loadData solarSize thermalLimit acc s
  else acc.

Definition monthTotals (loadData : list LoadData.t)
  (solarData : list SolarData.t) (solarSize thermalLimit : float) (m : Z)
  : float * float :=
  fold_left (monthStep loadData solarSize thermalLimit m) solarData
            (0%float, 0%float).

Definition calculateMonthlyStats (loadData : list LoadData.t)
  (solarData : list SolarData.t) (solarSize thermalLimit : float)
  : list MonthlyData :=
  map (fun m =>
         let '(production, curtailment) :=
           monthTotals loadData solarData solarSize thermalLimit m in
         {| month := m;
            productionMWh := production;
            curtailmentMWh := curtailment |})
      (upto 12).

End Aggregator.

Definition totalProduction (monthlyData : list MonthlyData) : float :=
  fold_left (fun sum m => (sum + productionMWh m)%float) monthlyData 0%float.

Definition totalCurtailment (monthlyData : list MonthlyData) : float :=
  fold_left (fun sum m => (sum + curtailmentMWh m)%float) monthlyData 0%float.

Definition calculateAnnualCurtailmentPct (monthlyData : list MonthlyData)
  : float :=
  let tp := totalProduction monthlyData in
  let tc := totalCurtailment monthlyData in
  if (0 <? tc)%float then (100 * tc / (tp + tc))%float else 0%float.

(** The one-pass loop of [generatePlot], case 6, for one plant [size]. *)
Definition annualTotals (loadData : list LoadData.t)
  (solarData : list SolarData.t) (size THERMAL_LIMIT : float)
  : float * float :=
  fold_left (accumulate loadData size THERMAL_LIMIT) solarData
            (0%float, 0%float).

(** [totalGWh[idx] > 0 ? (100 * curt / totalGWh[idx]) : 0], the percentage
    of the same loop. *)
Definition pctCurt (bar : float * float) : float :=
  let '(gwh, curt) := bar in
  let totalGWh := (gwh + curt)%float in
  if (0 <? totalGWh)%float then (100 * curt / totalGWh)%float else 0%float.

(** The samples of one calendar month, in series order. *)
Definition monthSamples (getMonth : Z -> Z) (solarData : list SolarData.t)
  (m : Z) : list SolarData.t :=
  filter (fun s => getMonth (SolarData.timestamp s) =? m) solarData.

(** One hour in which the circuit exports 12 MW against a limit of -10 MW. *)
Definition loadOver : list LoadData.t := [LoadData.mk 0 (-12)%float].
Definition solarOne : list SolarData.t := [SolarData.mk 0 1%float].


(** One sample of per-unit output 0.1 in January and two, 0.2 and 0.3, in
    February, under a load that never binds. *)
Definition loadWide : list LoadData.t :=
  [LoadData.mk 0 100%float;
   LoadData.mk 2678400000 100%float;
   LoadData.mk 2682000000 100%float].
Definition solarThree : list SolarData.t :=
  [SolarData.mk 0 0x1.999999999999ap-4%float;
   SolarData.mk 2678400000 0x1.999999999999ap-3%float;
   SolarData.mk 2682000000 0x1.3333333333333p-2%float].

End F64.




(** ** Predicates and inputs used in the statements *)


(** Distance in milliseconds between a load point and a solar sample. *)
Definition distance (s : SolarData.t) (l : LoadData.t) : Z :=
  Z.abs (LoadData.timestamp l - SolarData.timestamp s).

(** Hosting capacity of a load point. *)
Definition hostingCapacity (thermalLimit : Q) (l : LoadData.t) : Q :=
  (LoadData.net_load_mw l - thermalLimit)%Q.

Definition Qsum (l : list Q) : Q := fold_right Qplus 0%Q l.

(** The scenario of the specification: seven hours of load from [T0 = 0],
    a co-located solar series of per-unit output 1. *)
Definition load7 : list LoadData.t :=
  map (fun p => LoadData.mk (fst p * 3600000) (inject_Z (snd p)))
      [(0, -5); (1, -8); (2, -12); (3, -9); (4, -3); (5, 2); (6, 5)].

Definition solar7 : list SolarData.t :=
  map (fun h => SolarData.mk (h * 3600000) 1%Q) [0; 1; 2; 3; 4; 5; 6].

(** One hour in which the circuit exports 12 MW against a limit of -10 MW:
    the hosting capacity is -2 MW. *)
Definition loadOver : list LoadData.t := [LoadData.mk 0 (-12 # 1)].
Definition solarOne : list SolarData.t := [SolarData.mk 0 1%Q].

(** ** Worst hour of a load series: [Math.min(...netLoad)] and [indexOf] *)

(** [Math.min(...xs)]; [Infinity] for no argument. *)
Definition mathMin (xs : list Q) : number :=
  match xs with
  | [] => Infinity
  | x :: rest => Finite (fold_left Qmin rest x)
  end.




(** ** Date windows: [filterDataByDate] *)

Section DateWindow.

(** [d.setHours(h, m, s)] on the time value [d], in the time zone of the
    host. *)
Variable setHours : Z -> Z -> Z -> Z -> Z.

(** A date string is given by the time value [new Date(str)] parses it
    to. *)
Definition filterDataByDate (data : list LoadData.t) (startDate : Z)
  (endDate : option Z) : list LoadData.t :=
  let start := setHours startDate 0 0 0 in
  let end_ :=
    setHours (match endDate with Some e => e | None => startDate end)
             23 59 59 in
  filter (fun d => (start <=? LoadData.timestamp d)
                   && (LoadData.timestamp d <=? end_)) data.

End DateWindow.

(** [setHours] of a host running in UTC: the day and the milliseconds of the
    second are kept. *)
Definition setUTCHours (d h m s : Z) : Z :=
  (d / msPerDay) * msPerDay + h * 3600000 + m * 60000 + s * 1000
  + d mod 1000.

(** ** Multi-day series: [generateMultiDayPlot] and [generatePlot], case 5 *)

Fixpoint findIndexFrom {A : Type} (p : A -> bool) (l : list A) (i : Z) : Z :=
  match l with
  | [] => -1
  | a :: rest => if p a then i else findIndexFrom p rest (i + 1)
  end.

Definition findIndex {A : Type} (p : A -> bool) (l : list A) : Z :=
  findIndexFrom p l 0.

Record MultiDay : Type := mkMultiDay {
  timestamps : list Z;
  realTimeCapacity : list Q;
  solarForPeriod : list SolarData.t;
  solarOutputRaw : list Q;
  solarOutputFI : list number
}.

(** [Math.min(output, realTimeCapacity[closestCapIdx])] when the index is
    not negative, [output] otherwise; [Math.min] with [undefined] is
    [NaN]. *)
Definition clipToCapacity (timestamps : list Z) (realTimeCapacity : list Q)
  (output : Q) (sp : SolarData.t) : number :=
  let closestCapIdx :=
    findIndex (fun t => Z.abs (t - SolarData.timestamp sp) <? 3600000)
              timestamps in
  if 0 <=? closestCapIdx then
    match get realTimeCapacity closestCapIdx with
    | Some c => Finite (Qmin output c)
    | None => NaN
    end
  else Finite output.

(** The series of the multi-day plot over the load window [tenDayData].
    The callback of [solarOutputRaw.map] reads [solarForPeriod[idx]], the
    sample its [output] was computed from, so the two arrays are walked
    together.  [None] is the [TypeError] of [timestamps[0].getTime()] and
    [timestamps[timestamps.length - 1].getTime()] on an empty window. *)
Definition multiDaySeries (tenDayData : list LoadData.t)
  (solarData : list SolarData.t) (solarSize thermalLimit : Q)
  : option MultiDay :=
  let timestamps := map LoadData.timestamp tenDayData in
  let realTimeCapacity :=
    map (fun d => (LoadData.net_load_mw d - thermalLimit)%Q) tenDayData in
  match get timestamps 0,
        get timestamps (Z.of_nat (length timestamps) - 1) with
  | Some first, Some last =>
      let solarForPeriod :=
        filter (fun s => let t := SolarData.timestamp s in
                         (first <=? t) && (t <=? last)) solarData in
      let solarOutputRaw :=
        map (fun s => (SolarData.ac_kw_per_kwdc s * solarSize)%Q)
            solarForPeriod in
      let solarOutputFI :=
        map (fun '(output, sp) =>
               clipToCapacity timestamps realTimeCapacity output sp)
            (combine solarOutputRaw solarForPeriod) in
      Some (mkMultiDay timestamps realTimeCapacity solarForPeriod
                       solarOutputRaw solarOutputFI)
  | _, _ => None
  end.

(** ** Annual comparison: [generatePlot], case 6 *)

(** [Math.min(...realTimeCapacity)] over the full year. *)
Definition minCapacity (loadData : list LoadData.t) (THERMAL_LIMIT : Q)
  : number :=
  mathMin (map (fun d => (LoadData.net_load_mw d - THERMAL_LIMIT)%Q) loadData).

(** [(annualMWh, annualCurtailedMWh)] of one plant size, in GWh. *)
Definition annualGWh (loadData : list LoadData.t)
  (solarData : list SolarData.t) (size THERMAL_LIMIT : Q) : Q * Q :=
  let '(totalMWh, curtailedMWh) :=
    annualTotals loadData solarData size THERMAL_LIMIT in
  ((totalMWh / 1000)%Q, (curtailedMWh / 1000)%Q).

(** [totalGWh[idx] > 0 ? (100 * curt / totalGWh[idx]) : 0]. *)
Definition pctCurt (bar : Q * Q) : number :=
  let '(gwh, curt) := bar in
  let totalGWh := (gwh + curt)%Q in
  if Qltb 0 totalGWh then jsdiv (100 * curt)%Q totalGWh else Finite 0%Q.

(** ** Points emitted by one iteration of [buildReverseFlowSeries] *)

(** The test [crossesZero && y1 !== y0] on array reads. *)
Definition crossesZero (y0 y1 : option Q) : bool :=
  match y0, y1 with
  | Some b0, Some b1 =>
      ((Qle_bool b0 0 && Qltb 0 b1) || (Qltb 0 b0 && Qle_bool b1 0))
      && negb (Qeq_bool b1 b0)
  | _, _ => false
  end.

Definition crossingTime (t0 t1 : Z) (b0 b1 : Q) : Z :=
  timeClip (inject_Z t0 + (inject_Z t1 - inject_Z t0) * (- b0 / (b1 - b0)))%Q.

(** What iteration [i] appends to [xOut] and [yOut] when [x[i]] and
    [x[i + 1]] are elements of [x]. *)
Definition emitted (x : list Z) (y : list Q) (i : Z) : Series :=
  match get x i, get x (i + 1), get y i, get y (i + 1) with
  | Some t0, Some t1, Some b0, Some b1 =>
      if crossesZero (Some b0) (Some b1)
      then ([Some t0; Some (crossingTime t0 t1 b0 b1)],
            [keepReverse (Some b0); Some 0%Q])
      else ([Some t0], [keepReverse (Some b0)])
  | x0, _, y0, _ => ([x0], [keepReverse y0])
  end.

(** An output value that is [null] or not positive. *)
Definition notPositive (v : option Q) : Prop :=
  match v with Some q => (q <= 0)%Q | None => True end.

(** ** Sanity checks on concrete inputs *)

Example scenario_production :
  map Qred (map productionMWh
    (calculateMonthlyStats getUTCMonth load7 solar7 3 (-10 # 1)))
  = [13%Q; 0%Q; 0%Q; 0%Q; 0%Q; 0%Q; 0%Q; 0%Q; 0%Q; 0%Q; 0%Q; 0%Q].
Proof. vm_compute. reflexivity. Qed.

Example scenario_curtailment :
  map Qred (map curtailmentMWh
    (calculateMonthlyStats getUTCMonth load7 solar7 3 (-10 # 1)))
  = [8%Q; 0%Q; 0%Q; 0%Q; 0%Q; 0%Q; 0%Q; 0%Q; 0%Q; 0%Q; 0%Q; 0%Q].
Proof. vm_compute. reflexivity. Qed.

Example scenario_annual :
  annualTotals load7 solar7 3 (-10 # 1) = (13%Q, 8%Q).
Proof. vm_compute. reflexivity. Qed.

Example getUTCMonth_samples :
  map getUTCMonth
    [0; 2678399999; 2678400000; 1684368000000; 1703980800000;
     1709164800000; 1709251200000; -1]
  = [0; 0; 1; 4; 11; 1; 2; 11].
Proof. vm_compute. reflexivity. Qed.

Example reverseFlow_mismatched :
  buildReverseFlowSeries [5; 6; 9] [(-1)%Q; 2%Q; 0%Q; 7%Q]
  = Some ([Some 5; Some 5; Some 6; Some 9; Some 9],
          [Some (-1)%Q; Some 0%Q; None; Some 0%Q; Some 0%Q]).
Proof. vm_compute. reflexivity. Qed.

(** ** Comparisons and minimum on [Q] *)

Lemma Qltb_true (a b : Q) : Qltb a b = true <-> (a < b)%Q.
Proof.
  unfold Qltb. rewrite negb_true_iff. split; intro H.
  - apply Qnot_le_lt. intro L. apply Qle_bool_iff in L. congruence.
  - destruct (Qle_bool b a) eqn:E; [|reflexivity].
    apply Qle_bool_iff in E. lra.
Qed.

Lemma Qltb_false (a b : Q) : Qltb a b = false <-> (b <= a)%Q.
Proof.
  unfold Qltb. rewrite negb_false_iff. apply Qle_bool_iff.
Qed.

(** [Math.min] returns one of its two arguments. *)
Lemma Qmin_cases (a b : Q) :
  ((a <= b)%Q /\ Qmin a b = a) \/ ((b < a)%Q /\ Qmin a b = b).
Proof.
  unfold Qmin, GenericMinMax.gmin.
  destruct (a ?= b)%Q eqn:E.
  - left. apply Qeq_alt in E. split; [lra | reflexivity].
  - left. apply Qlt_alt in E. split; [lra | reflexivity].
  - right. apply Qgt_alt in E. split; [lra | reflexivity].
Qed.

(** ** Loops as folds *)

Lemma fold_left_invariant {A B : Type} (P : A -> Prop) (f : A -> B -> A)
  (l : list B) :
  (forall a b, In b l -> P a -> P (f a b)) ->
  forall a, P a -> P (fold_left f l a).
Proof.
  induction l as [|b l IH]; intros Hf a Ha; simpl.
  - exact Ha.
  - apply IH.
    + intros a' b' Hin. apply Hf. now right.
    + apply Hf; [now left | exact Ha].
Qed.

Lemma fold_left_related {A B : Type} (R : A -> A -> Prop) (f g : A -> B -> A)
  (l : list B) :
  (forall a a' b, In b l -> R a a' -> R (f a b) (g a' b)) ->
  forall a a', R a a' -> R (fold_left f l a) (fold_left g l a').
Proof.
  induction l as [|b l IH]; intros Hfg a a' Ha; simpl.
  - exact Ha.
  - apply IH.
    + intros x x' b' Hin. apply Hfg. now right.
    + apply Hfg; [now left | exact Ha].
Qed.

Lemma upto_12 : upto 12 = [0; 1; 2; 3; 4; 5; 6; 7; 8; 9; 10; 11].
Proof. reflexivity. Qed.

Lemma In_upto (n k : Z) : In k (upto n) <-> 0 <= k < n.
Proof.
  unfold upto. rewrite in_map_iff. split.
  - intros [i [<- Hi]]. apply in_seq in Hi. lia.
  - intros Hk. exists (Z.to_nat k). split; [lia|]. apply in_seq. lia.
Qed.

(** ** Entries of [calculateMonthlyStats] *)

Section MonthlyStats.

Variable getMonth : Z -> Z.
Variable loadData : list LoadData.t.
Variable solarData : list SolarData.t.
Variables solarSize thermalLimit : Q.

Let stats := calculateMonthlyStats getMonth loadData solarData solarSize thermalLimit.
Let totals := monthTotals getMonth loadData solarData solarSize thermalLimit.

Lemma stats_length : length stats = 12%nat.
Proof. reflexivity. Qed.

Lemma stats_entry (st : MonthlyData) :
  In st stats ->
  exists m, 0 <= m < 12 /\ month st = m /\
            productionMWh st = fst (totals m) /\
            curtailmentMWh st = snd (totals m).
Proof.
  unfold stats, calculateMonthlyStats. rewrite in_map_iff.
  intros [m [<- Hm]]. apply In_upto in Hm.
  exists m. subst totals. cbv beta.
  destruct (monthTotals getMonth loadData solarData solarSize thermalLimit m).
  simpl. auto.
Qed.

(** A property of the accumulators that the clipping of every sample
    preserves holds of the totals of every month. *)
Lemma monthTotals_invariant (P : Q * Q -> Prop) (m : Z) :
  P (0%Q, 0%Q) ->
  (forall acc s, In s solarData -> P acc ->
                 P (accumulate loadData solarSize thermalLimit acc s)) ->
  P (totals m).
Proof.
  intros H0 Hstep. unfold totals, monthTotals.
  apply fold_left_invariant; [|exact H0].
  intros acc s Hin Hacc. unfold monthStep.
  destruct (getMonth (SolarData.timestamp s) =? m); auto.
Qed.

End MonthlyStats.


(** ** C1: a plant of size zero *)

(** C1, as amended.  With [plantSizeMW = 0] the aggregation returns 12
    entries, and every entry has [productionMWh = 0] and
    [curtailmentMWh = 0] provided that no solar sample is aligned to a load
    point of negative hosting capacity. *)
Theorem zero_plant_zero_stats (getMonth : Z -> Z)
  (loadData : list LoadData.t) (solarData : list SolarData.t)
  (thermalLimit : Q) :
  (forall s l, In s solarData -> matchingLoad loadData s = Some l ->
               (0 <= hostingCapacity thermalLimit l)%Q) ->
  let stats := calculateMonthlyStats getMonth loadData solarData 0 thermalLimit in
  length stats = 12%nat /\
  forall st, In st stats ->
             (productionMWh st == 0)%Q /\ (curtailmentMWh st == 0)%Q.
Proof.
  intros Hcap stats. split; [reflexivity|].
  intros st Hin. apply stats_entry in Hin.
  destruct Hin as [m [_ [_ [-> ->]]]].
  apply (monthTotals_invariant getMonth loadData solarData 0 thermalLimit
           (fun acc => (fst acc == 0)%Q /\ (snd acc == 0)%Q)).
  - simpl. split; reflexivity.
  - intros [p c] s Hs [Hp Hc]. simpl in Hp, Hc. unfold accumulate.
    destruct (matchingLoad loadData s) as [l|] eqn:E; simpl; [|auto].
    specialize (Hcap s l Hs E). unfold hostingCapacity in Hcap.
    destruct (Qmin_cases (SolarData.ac_kw_per_kwdc s * 0)
                         (LoadData.net_load_mw l - thermalLimit))
      as [[H ->]|[H ->]]; split; lra.
Qed.

(** C1 fails as stated: with plant size 0, a load of -12 MW and a thermal
    limit of -10 MW the entry of January has production -2 and
    curtailment 2. *)
Lemma zero_plant_counterexample :
  ~ (forall st,
        In st (calculateMonthlyStats getUTCMonth loadOver solarOne 0 (-10 # 1)) ->
        (productionMWh st == 0)%Q /\ (curtailmentMWh st == 0)%Q).
Proof.
  intros H.
  destruct (H (hd (mkMonthlyData 0 0 0)
                 (calculateMonthlyStats getUTCMonth loadOver solarOne 0 (-10 # 1))))
    as [Hp _].
  - left. reflexivity.
  - vm_compute in Hp. discriminate Hp.
Qed.

Lemma zero_plant_zero_stats_witness :
  let stats := calculateMonthlyStats getUTCMonth load7 solar7 0 (-12 # 1) in
  length stats = 12%nat /\
  forall st, In st stats ->
             (productionMWh st == 0)%Q /\ (curtailmentMWh st == 0)%Q.
Proof.
  apply (zero_plant_zero_stats getUTCMonth load7 solar7 (-12 # 1)).
  intros s l Hs Hl.
  assert (Hin : In l load7).
  { unfold matchingLoad in Hl. apply find_some in Hl. tauto. }
  clear Hs Hl. simpl in Hin.
  repeat (destruct Hin as [<-|Hin]; [vm_compute; discriminate|]).
  destruct Hin.
Defined.

(** ** C4: bounds of the entries *)




(** ** Sums over the monthly entries *)

Lemma fold_left_Qplus {A : Type} (f : A -> Q) (l : list A) :
  forall a, (fold_left (fun sum m => sum + f m) l a == a + Qsum (map f l))%Q.
Proof.
  induction l as [|m l IH]; intros a; simpl.
  - lra.
  - rewrite IH. lra.
Qed.

Lemma totalProduction_sum (monthlyData : list MonthlyData) :
  (totalProduction monthlyData == Qsum (map productionMWh monthlyData))%Q.
Proof.
  unfold totalProduction. rewrite fold_left_Qplus. lra.
Qed.

Lemma totalCurtailment_sum (monthlyData : list MonthlyData) :
  (totalCurtailment monthlyData == Qsum (map curtailmentMWh monthlyData))%Q.
Proof.
  unfold totalCurtailment. rewrite fold_left_Qplus. lra.
Qed.

Lemma Qsum_nonneg {A : Type} (f : A -> Q) (l : list A) :
  (forall a, In a l -> (0 <= f a)%Q) -> (0 <= Qsum (map f l))%Q.
Proof.
  induction l as [|a l IH]; intros H; simpl.
  - lra.
  - assert (0 <= f a)%Q by (apply H; now left).
    assert (0 <= Qsum (map f l))%Q by (apply IH; intros; apply H; now right).
    lra.
Qed.

Lemma Qsum_le {A : Type} (f g : A -> Q) (l : list A) :
  (forall a, In a l -> (f a <= g a)%Q) ->
  (Qsum (map f l) <= Qsum (map g l))%Q.
Proof.
  induction l as [|a l IH]; intros H; simpl.
  - lra.
  - assert (f a <= g a)%Q by (apply H; now left).
    assert (Qsum (map f l) <= Qsum (map g l))%Q
      by (apply IH; intros; apply H; now right).
    lra.
Qed.

Lemma Qsum_ext {A : Type} (f g : A -> Q) (l : list A) :
  (forall a, In a l -> (f a == g a)%Q) ->
  (Qsum (map f l) == Qsum (map g l))%Q.
Proof.
  induction l as [|a l IH]; intros H; simpl.
  - reflexivity.
  - rewrite (H a) by now left. rewrite IH; [reflexivity|].
    intros; apply H; now right.
Qed.

Lemma Qsum_plus {A : Type} (f g : A -> Q) (l : list A) :
  (Qsum (map (fun a => f a + g a) l) == Qsum (map f l) + Qsum (map g l))%Q.
Proof.
  induction l as [|a l IH]; simpl.
  - lra.
  - rewrite IH. lra.
Qed.

(** * Binary64: signs through the rounded operations *)














(** ** C2 and C3: [calculateAnnualCurtailmentPct] *)






(** C3, at the input on which the code departs from the claim.  For a plant
    of size 0 against a hosting capacity of -2 MW the aggregator returns
    production -2 and curtailment 2: the denominator is 0, the guard on the
    total curtailment lets the division through, and the result is
    [Infinity], not 0.  The percentage of the annual comparison, which tests
    its denominator, returns 0 on the same totals. *)
Theorem annual_pct_zero_denominator :
  let stats :=
    F64.calculateMonthlyStats getUTCMonth F64.loadOver F64.solarOne 0 (-10) in
  let tp := F64.totalProduction stats in
  let tc := F64.totalCurtailment stats in
  length stats = 12%nat /\
  tp = (-2)%float /\ tc = 2%float /\ (tp + tc)%float = 0%float /\
  F64.calculateAnnualCurtailmentPct stats = infinity /\
  F64.pctCurt ((tp / 1000)%float, (tc / 1000)%float) = 0%float.
Proof.
  cbv zeta. repeat split; vm_compute; reflexivity.
Qed.

(** ** C7 and C8: annual totals *)

Lemma calculateMonthlyStats_map getMonth loadData solarData solarSize thermalLimit :
  calculateMonthlyStats getMonth loadData solarData solarSize thermalLimit
  = map (fun m =>
           let t := monthTotals getMonth loadData solarData solarSize thermalLimit m in
           mkMonthlyData m (fst t) (snd t))
        (upto 12).
Proof.
  unfold calculateMonthlyStats. apply map_ext. intros m.
  destruct (monthTotals getMonth loadData solarData solarSize thermalLimit m).
  reflexivity.
Qed.

Lemma totalProduction_stats getMonth loadData solarData solarSize thermalLimit :
  (totalProduction
     (calculateMonthlyStats getMonth loadData solarData solarSize thermalLimit)
   == Qsum (map (fun m => fst (monthTotals getMonth loadData solarData
                                           solarSize thermalLimit m))
                (upto 12)))%Q.
Proof.
  rewrite totalProduction_sum, calculateMonthlyStats_map, map_map.
  reflexivity.
Qed.

Lemma totalCurtailment_stats getMonth loadData solarData solarSize thermalLimit :
  (totalCurtailment
     (calculateMonthlyStats getMonth loadData solarData solarSize thermalLimit)
   == Qsum (map (fun m => snd (monthTotals getMonth loadData solarData
                                           solarSize thermalLimit m))
                (upto 12)))%Q.
Proof.
  rewrite totalCurtailment_sum, calculateMonthlyStats_map, map_map.
  reflexivity.
Qed.

(** A larger hosting capacity curtails less of the same sample. *)
Lemma accumulate_curtailment_mono loadData size t1 t2 acc1 acc2 s :
  (t2 <= t1)%Q ->
  (snd acc2 <= snd acc1)%Q ->
  (snd (accumulate loadData size t2 acc2 s)
   <= snd (accumulate loadData size t1 acc1 s))%Q.
Proof.
  intros Ht Hacc. destruct acc1 as [p1 c1], acc2 as [p2 c2].
  simpl in Hacc. unfold accumulate.
  destruct (matchingLoad loadData s) as [l|]; simpl; [|exact Hacc].
  destruct (Qmin_cases (SolarData.ac_kw_per_kwdc s * size)
                       (LoadData.net_load_mw l - t2)) as [[H2 ->]|[H2 ->]];
  destruct (Qmin_cases (SolarData.ac_kw_per_kwdc s * size)
                       (LoadData.net_load_mw l - t1)) as [[H1 ->]|[H1 ->]];
  lra.
Qed.

(** C7.  For fixed series and plant size, the total annual curtailment (the
    sum of [curtailmentMWh] over the 12 entries) does not increase when the
    thermal limit is made more negative. *)
Theorem curtailment_monotone (getMonth : Z -> Z)
  (loadData : list LoadData.t) (solarData : list SolarData.t)
  (solarSize thermalLimit thermalLimit' : Q) :
  (thermalLimit' <= thermalLimit)%Q ->
  (totalCurtailment
     (calculateMonthlyStats getMonth loadData solarData solarSize thermalLimit')
   <= totalCurtailment
        (calculateMonthlyStats getMonth loadData solarData solarSize thermalLimit))%Q.
Proof.
  intros Ht. rewrite !totalCurtailment_stats.
  apply Qsum_le. intros m _. unfold monthTotals.
  apply (fold_left_related (fun a2 a1 => (snd a2 <= snd a1)%Q)).
  - intros a2 a1 s _ Hacc. unfold monthStep.
    destruct (getMonth (SolarData.timestamp s) =? m); [|exact Hacc].
    apply accumulate_curtailment_mono; assumption.
  - simpl. lra.
Qed.

Lemma curtailment_monotone_witness :
  (totalCurtailment (calculateMonthlyStats getUTCMonth load7 solar7 3 (-12 # 1))
   <= totalCurtailment (calculateMonthlyStats getUTCMonth load7 solar7 3 (-10 # 1)))%Q.
Proof.
  apply (curtailment_monotone getUTCMonth load7 solar7 3 (-10 # 1) (-12 # 1)).
  vm_compute. discriminate.
Defined.

Lemma getUTCMonth_range (t : Z) : 0 <= getUTCMonth t <= 11.
Proof.
  unfold getUTCMonth. cbv zeta.
  match goal with |- 0 <= ?a mod 12 <= 11 =>
    pose proof (Z.mod_pos_bound a 12 ltac:(lia)) end.
  lia.
Qed.

Lemma accumulate_fst loadData size thermalLimit acc s :
  (fst (accumulate loadData size thermalLimit acc s)
   == fst acc + fst (accumulate loadData size thermalLimit (0%Q, 0%Q) s))%Q.
Proof.
  destruct acc as [p c]. unfold accumulate.
  destruct (matchingLoad loadData s); simpl; lra.
Qed.

Lemma Qsum_month_indicator (k : Z) (v : Q) :
  0 <= k <= 11 ->
  (Qsum (map (fun m => if k =? m then v else 0) (upto 12)) == v)%Q.
Proof.
  intros Hk. rewrite upto_12.
  assert (H : k = 0 \/ k = 1 \/ k = 2 \/ k = 3 \/ k = 4 \/ k = 5 \/
              k = 6 \/ k = 7 \/ k = 8 \/ k = 9 \/ k = 10 \/ k = 11) by lia.
  repeat (destruct H as [->|H]; [simpl; lra|]).
  subst k. simpl. lra.
Qed.

Lemma annualTotals_snoc loadData l s size thermalLimit :
  (fst (annualTotals loadData (l ++ [s]) size thermalLimit)
   == fst (annualTotals loadData l size thermalLimit)
      + fst (accumulate loadData size thermalLimit (0%Q, 0%Q) s))%Q.
Proof.
  unfold annualTotals. rewrite fold_left_app. cbn [fold_left].
  apply accumulate_fst.
Qed.

Lemma monthTotals_snoc getMonth loadData l s size thermalLimit m :
  (fst (monthTotals getMonth loadData (l ++ [s]) size thermalLimit m)
   == fst (monthTotals getMonth loadData l size thermalLimit m)
      + (if getMonth (SolarData.timestamp s) =? m
         then fst (accumulate loadData size thermalLimit (0%Q, 0%Q) s)
         else 0))%Q.
Proof.
  unfold monthTotals. rewrite fold_left_app. cbn [fold_left].
  unfold monthStep at 1.
  destruct (getMonth (SolarData.timestamp s) =? m).
  - apply accumulate_fst.
  - lra.
Qed.

(** In exact arithmetic the [productionMWh] entries of the 12 months add up
    to the production of the one-pass loop. *)
Lemma monthly_production_sums_exact (getMonth : Z -> Z)
  (loadData : list LoadData.t) (solarData : list SolarData.t)
  (solarSize thermalLimit : Q) :
  (forall t, 0 <= getMonth t <= 11) ->
  (totalProduction
     (calculateMonthlyStats getMonth loadData solarData solarSize thermalLimit)
   == fst (annualTotals loadData solarData solarSize thermalLimit))%Q.
Proof.
  intros Hmonth. rewrite totalProduction_stats.
  induction solarData as [|s l IH] using rev_ind.
  - rewrite upto_12. simpl. lra.
  - rewrite annualTotals_snoc, <- IH.
    rewrite (Qsum_ext _ _ _
               (fun m _ => monthTotals_snoc getMonth loadData l s
                             solarSize thermalLimit m)).
    rewrite Qsum_plus, Qsum_month_indicator by apply Hmonth.
    reflexivity.
Qed.

(** ** Month buckets in binary64 *)

(** The totals of a month are the one-pass totals of its samples. *)
Lemma F64_monthTotals_bucket (getMonth : Z -> Z)
  (loadData : list F64.LoadData.t) (solarData : list F64.SolarData.t)
  (solarSize thermalLimit : float) (m : Z) :
  F64.monthTotals getMonth loadData solarData solarSize thermalLimit m
  = F64.annualTotals loadData (F64.monthSamples getMonth solarData m)
                     solarSize thermalLimit.
Proof.
  unfold F64.monthTotals, F64.annualTotals, F64.monthSamples.
  generalize (0%float, 0%float).
  induction solarData as [|s l IH]; intros acc; cbn [fold_left filter].
  - reflexivity.
  - rewrite IH. unfold F64.monthStep.
    destruct (getMonth (F64.SolarData.timestamp s) =? m); reflexivity.
Qed.

Lemma F64_stats_buckets (getMonth : Z -> Z)
  (loadData : list F64.LoadData.t) (solarData : list F64.SolarData.t)
  (solarSize thermalLimit : float) :
  map (fun st => (F64.productionMWh st, F64.curtailmentMWh st))
      (F64.calculateMonthlyStats getMonth loadData solarData solarSize
                                 thermalLimit)
  = map (fun m => F64.annualTotals loadData
                    (F64.monthSamples getMonth solarData m)
                    solarSize thermalLimit)
        (upto 12).
Proof.
  unfold F64.calculateMonthlyStats. rewrite map_map. apply map_ext.
  intros m. rewrite <- F64_monthTotals_bucket.
  destruct (F64.monthTotals getMonth loadData solarData solarSize
                            thermalLimit m).
  reflexivity.
Qed.

(** Adding a sample of month [k] to the series adds it to the bucket of [k]
    and to no other. *)
Lemma filter_head {A : Type} (p : A -> bool) (a : A) (l : list A) :
  filter p (a :: l) = if p a then a :: filter p l else filter p l.
Proof. reflexivity. Qed.

Lemma buckets_other {A : Type} (key : A -> Z) (a : A) (l : list A)
  (months : list Z) :
  ~ In (key a) months ->
  flat_map (fun m => filter (fun s => key s =? m) (a :: l)) months
  = flat_map (fun m => filter (fun s => key s =? m) l) months.
Proof.
  induction months as [|m months IH]; intros Hn; [reflexivity|].
  cbn [flat_map]. rewrite filter_head.
  destruct (key a =? m) eqn:E.
  - apply Z.eqb_eq in E. exfalso. apply Hn. now left.
  - rewrite IH by (intros H; apply Hn; now right). reflexivity.
Qed.

Lemma buckets_cons {A : Type} (key : A -> Z) (a : A) (l : list A)
  (months : list Z) :
  NoDup months -> In (key a) months ->
  Permutation
    (flat_map (fun m => filter (fun s => key s =? m) (a :: l)) months)
    (a :: flat_map (fun m => filter (fun s => key s =? m) l) months).
Proof.
  induction months as [|m months IH]; intros Hnd Hin; [destruct Hin|].
  inversion Hnd as [|? ? Hnotin Hnd']; subst.
  cbn [flat_map]. rewrite filter_head.
  destruct (key a =? m) eqn:E.
  - apply Z.eqb_eq in E. cbn [app]. apply perm_skip.
    apply Permutation_app_head.
    rewrite buckets_other by (rewrite E; exact Hnotin). reflexivity.
  - apply Z.eqb_neq in E. destruct Hin as [Hin|Hin]; [congruence|].
    etransitivity.
    + apply Permutation_app_head. apply IH; assumption.
    + apply Permutation_sym. apply Permutation_middle.
Qed.

Lemma NoDup_upto_12 : NoDup (upto 12).
Proof.
  rewrite upto_12.
  repeat (constructor; [cbn; intuition discriminate|]). constructor.
Qed.

Lemma buckets_partition {A : Type} (key : A -> Z) (l : list A) :
  (forall a, In a l -> 0 <= key a <= 11) ->
  Permutation (flat_map (fun m => filter (fun s => key s =? m) l) (upto 12)) l.
Proof.
  induction l as [|a l IH]; intros Hkey.
  - rewrite upto_12. reflexivity.
  - etransitivity.
    + apply buckets_cons; [apply NoDup_upto_12|].
      apply In_upto. specialize (Hkey a (or_introl eq_refl)). lia.
    + apply perm_skip. apply IH. intros b Hb. apply Hkey. now right.
Qed.

Lemma monthSamples_partition (getMonth : Z -> Z)
  (solarData : list F64.SolarData.t) :
  (forall t, 0 <= getMonth t <= 11) ->
  Permutation (flat_map (F64.monthSamples getMonth solarData) (upto 12))
              solarData.
Proof.
  intros Hmonth. unfold F64.monthSamples.
  apply (buckets_partition
           (fun s => getMonth (F64.SolarData.timestamp s)) solarData).
  intros a _. apply Hmonth.
Qed.

(** C8, as amended.  For any [getMonth] returning 0..11, in binary64 the
    entries of the 12 months are the one-pass totals of 12 sub-series, the
    samples of each month in series order, and these sub-series together
    hold every solar sample exactly once: the bucketing neither
    double-counts nor omits a sample.  In exact arithmetic the sum of
    [productionMWh] over the 12 entries therefore equals the one-pass total
    of the year; in binary64 the two differ by rounding when the additions
    fall in a different order. *)
Theorem month_buckets_partition_year (getMonth : Z -> Z)
  (loadData : list F64.LoadData.t) (solarData : list F64.SolarData.t)
  (solarSize thermalLimit : float)
  (exactLoad : list LoadData.t) (exactSolar : list SolarData.t)
  (exactSize exactLimit : Q) :
  (forall t, 0 <= getMonth t <= 11) ->
  map (fun st => (F64.productionMWh st, F64.curtailmentMWh st))
      (F64.calculateMonthlyStats getMonth loadData solarData solarSize
                                 thermalLimit)
  = map (fun m => F64.annualTotals loadData
                    (F64.monthSamples getMonth solarData m)
                    solarSize thermalLimit)
        (upto 12) /\
  Permutation (flat_map (F64.monthSamples getMonth solarData) (upto 12))
              solarData /\
  (totalProduction
     (calculateMonthlyStats getMonth exactLoad exactSolar exactSize exactLimit)
   == fst (annualTotals exactLoad exactSolar exactSize exactLimit))%Q.
Proof.
  intros Hmonth. split; [apply F64_stats_buckets|].
  split; [apply monthSamples_partition; exact Hmonth|].
  apply monthly_production_sums_exact. exact Hmonth.
Qed.

(** C8 fails as stated, in binary64: with one sample of 0.1 in January and
    two, 0.2 and 0.3, in February, the monthly productions 0.1 and 0.5 sum
    to 0.6 (0.59999999999999998) while the one-pass loop gives
    0.60000000000000009. *)
Lemma month_buckets_counterexample :
  let stats :=
    F64.calculateMonthlyStats getUTCMonth F64.loadWide F64.solarThree 1 (-10) in
  let annual := F64.annualTotals F64.loadWide F64.solarThree 1 (-10) in
  (F64.totalProduction stats =? fst annual)%float = false /\
  (F64.totalProduction stats <? fst annual)%float = true.
Proof.
  cbv zeta. split; vm_compute; reflexivity.
Qed.

Lemma month_buckets_partition_year_witness :
  Permutation
    (flat_map (F64.monthSamples getUTCMonth F64.solarThree) (upto 12))
    F64.solarThree /\
  (totalProduction (calculateMonthlyStats getUTCMonth load7 solar7 3 (-10 # 1))
   == fst (annualTotals load7 solar7 3 (-10 # 1)))%Q.
Proof.
  destruct (month_buckets_partition_year getUTCMonth F64.loadWide
              F64.solarThree 1 (-10) load7 solar7 3 (-10 # 1)
              getUTCMonth_range) as [_ [H1 H2]].
  split; assumption.
Defined.

(** ** C6 and C10: the time aligner *)

Lemma withinTolerance_true s l :
  withinTolerance s l = true <-> distance s l < 3600000.
Proof. unfold withinTolerance, distance. apply Z.ltb_lt. Qed.

Lemma withinTolerance_false s l :
  withinTolerance s l = false <-> 3600000 <= distance s l.
Proof. unfold withinTolerance, distance. apply Z.ltb_ge. Qed.

Lemma matchingLoad_None_iff loadData s :
  matchingLoad loadData s = None <->
  forall l, In l loadData -> 3600000 <= distance s l.
Proof.
  unfold matchingLoad. split.
  - intros H l Hl. apply withinTolerance_false.
    exact (find_none _ _ H l Hl).
  - induction loadData as [|l0 rest IH]; intros H; simpl; [reflexivity|].
    rewrite (proj2 (withinTolerance_false s l0)) by (apply H; now left).
    apply IH. intros l Hl. apply H. now right.
Qed.

(** [find] returns the first qualifying load point in sequence order. *)
Lemma matchingLoad_Some_iff loadData s l :
  matchingLoad loadData s = Some l <->
  exists pre post,
    loadData = pre ++ l :: post /\
    distance s l < 3600000 /\
    forall l', In l' pre -> 3600000 <= distance s l'.
Proof.
  unfold matchingLoad. split.
  - induction loadData as [|l0 rest IH]; simpl; [discriminate|].
    destruct (withinTolerance s l0) eqn:E.
    + intros [= ->]. exists [], rest. split; [reflexivity|].
      split; [apply withinTolerance_true; exact E | intros l' []].
    + intros H. destruct (IH H) as [pre [post [-> [Hl Hpre]]]].
      exists (l0 :: pre), post. split; [reflexivity|].
      split; [exact Hl|].
      intros l' [<-|Hin]; [apply withinTolerance_false; exact E | auto].
  - intros [pre [post [-> [Hl Hpre]]]].
    induction pre as [|l0 pre IH]; simpl.
    + rewrite (proj2 (withinTolerance_true s l)) by exact Hl. reflexivity.
    + rewrite (proj2 (withinTolerance_false s l0)) by (apply Hpre; now left).
      apply IH. intros l' Hin. apply Hpre. now right.
Qed.

Lemma unmatched_accumulate loadData size thermalLimit acc s :
  matchingLoad loadData s = None ->
  accumulate loadData size thermalLimit acc s = acc.
Proof.
  intros H. destruct acc as [p c]. unfold accumulate. rewrite H. reflexivity.
Qed.

(** An unmatched solar sample leaves the monthly stats and the annual totals
    as they are without it. *)
Lemma unmatched_excluded getMonth loadData s :
  matchingLoad loadData s = None ->
  forall pre post size thermalLimit,
    calculateMonthlyStats getMonth loadData (pre ++ s :: post) size thermalLimit
    = calculateMonthlyStats getMonth loadData (pre ++ post) size thermalLimit /\
    annualTotals loadData (pre ++ s :: post) size thermalLimit
    = annualTotals loadData (pre ++ post) size thermalLimit.
Proof.
  intros H pre post size thermalLimit. split.
  - unfold calculateMonthlyStats. apply map_ext. intros m.
    unfold monthTotals. rewrite !fold_left_app. cbn [fold_left].
    unfold monthStep at 2.
    rewrite unmatched_accumulate by exact H.
    destruct (getMonth (SolarData.timestamp s) =? m); reflexivity.
  - unfold annualTotals. rewrite !fold_left_app. cbn [fold_left].
    rewrite unmatched_accumulate by exact H. reflexivity.
Qed.

(** The first match wins although a later load point is nearer: a sample at
    [t = 3000000] takes the load point at [t = 0], not the one at its own
    timestamp. *)
Example first_match_not_nearest :
  matchingLoad [LoadData.mk 0 1; LoadData.mk 3000000 2]
               (SolarData.mk 3000000 1)
  = Some (LoadData.mk 0 1).
Proof. reflexivity. Qed.

(** C6.  Alignment returns the first load point in sequence order whose
    timestamp is less than 3,600,000 ms from the solar timestamp, whatever
    follows it, and no match when no load point qualifies.  A sample whose
    nearest load point is 3,600,001 ms away has no match and changes neither
    the monthly stats nor the annual totals; a sample with a load point
    3,599,999 ms away has a match. *)
Theorem alignment_first_within_tolerance (getMonth : Z -> Z)
  (loadData : list LoadData.t) (s : SolarData.t) :
  (forall l,
      matchingLoad loadData s = Some l <->
      exists pre post,
        loadData = pre ++ l :: post /\
        distance s l < 3600000 /\
        forall l', In l' pre -> 3600000 <= distance s l') /\
  (matchingLoad loadData s = None <->
   forall l, In l loadData -> 3600000 <= distance s l) /\
  ((forall l, In l loadData -> 3600001 <= distance s l) ->
   matchingLoad loadData s = None /\
   forall pre post size thermalLimit,
     calculateMonthlyStats getMonth loadData (pre ++ s :: post) size thermalLimit
     = calculateMonthlyStats getMonth loadData (pre ++ post) size thermalLimit /\
     annualTotals loadData (pre ++ s :: post) size thermalLimit
     = annualTotals loadData (pre ++ post) size thermalLimit) /\
  ((exists l, In l loadData /\ distance s l = 3599999) ->
   exists l', matchingLoad loadData s = Some l').
Proof.
  split; [intros l; apply matchingLoad_Some_iff|].
  split; [apply matchingLoad_None_iff|].
  split.
  - intros Hfar.
    assert (Hnone : matchingLoad loadData s = None).
    { apply matchingLoad_None_iff. intros l Hl. specialize (Hfar l Hl). lia. }
    split; [exact Hnone | apply unmatched_excluded; exact Hnone].
  - intros [l [Hin Hd]].
    destruct (matchingLoad loadData s) as [l'|] eqn:E; [now exists l'|].
    pose proof (proj1 (matchingLoad_None_iff loadData s) E l Hin). lia.
Qed.

Lemma alignment_first_within_tolerance_witness :
  matchingLoad [LoadData.mk 0 1] (SolarData.mk 3600001 1) = None /\
  exists l', matchingLoad [LoadData.mk 0 1] (SolarData.mk 3599999 1) = Some l'.
Proof.
  split.
  - apply (alignment_first_within_tolerance getUTCMonth
             [LoadData.mk 0 1] (SolarData.mk 3600001 1)).
    intros l [<-|[]]. vm_compute. discriminate.
  - apply (alignment_first_within_tolerance getUTCMonth
             [LoadData.mk 0 1] (SolarData.mk 3599999 1)).
    exists (LoadData.mk 0 1). split; [now left | reflexivity].
Defined.

(** C10.  The tolerance is strict: a load point exactly 3,600,000 ms from the
    solar sample does not qualify and is never its match; every match is
    strictly less than one hour away; and the sample is without a match, and
    so left out of the monthly stats and the annual totals, exactly when no
    load point lies strictly within one hour of it. *)
Theorem tolerance_is_strict (getMonth : Z -> Z)
  (loadData : list LoadData.t) (s : SolarData.t) (l : LoadData.t) :
  distance s l = 3600000 ->
  withinTolerance s l = false /\
  matchingLoad loadData s <> Some l /\
  (forall l', matchingLoad loadData s = Some l' -> distance s l' < 3600000) /\
  (matchingLoad loadData s = None <->
   forall l', In l' loadData -> ~ distance s l' < 3600000) /\
  (matchingLoad loadData s = None ->
   forall pre post size thermalLimit,
     calculateMonthlyStats getMonth loadData (pre ++ s :: post) size thermalLimit
     = calculateMonthlyStats getMonth loadData (pre ++ post) size thermalLimit /\
     annualTotals loadData (pre ++ s :: post) size thermalLimit
     = annualTotals loadData (pre ++ post) size thermalLimit).
Proof.
  intros Hd.
  assert (Hsome : forall l', matchingLoad loadData s = Some l' ->
                             distance s l' < 3600000).
  { intros l' H. apply matchingLoad_Some_iff in H.
    destruct H as [_ [_ [_ [H _]]]]. exact H. }
  split; [apply withinTolerance_false; lia|].
  split; [intros H; apply Hsome in H; lia|].
  split; [exact Hsome|].
  split.
  - rewrite matchingLoad_None_iff.
    split; intros H l' Hl'; specialize (H l' Hl'); lia.
  - apply unmatched_excluded.
Qed.

Lemma tolerance_is_strict_witness :
  withinTolerance (SolarData.mk 3600000 1) (LoadData.mk 0 1) = false /\
  matchingLoad [LoadData.mk 0 1] (SolarData.mk 3600000 1) <> Some (LoadData.mk 0 1).
Proof.
  destruct (tolerance_is_strict getUTCMonth [LoadData.mk 0 1]
              (SolarData.mk 3600000 1) (LoadData.mk 0 1) eq_refl)
    as [H1 [H2 _]].
  split; assumption.
Defined.

(** ** C9 and C5: the zero-crossing interpolator *)

(** Crossing time of a segment that falls from 1 to -1 over one hour. *)
Lemma crossing_time (t0 : Z) :
  timeClip (inject_Z t0
            + (inject_Z (t0 + 3600000) - inject_Z t0) * (Qopp 1 / (-1 - 1)))%Q
  = t0 + 1800000.
Proof.
  unfold timeClip, Qplus, Qminus, Qmult, Qopp, Qdiv, Qinv, inject_Z.
  cbn [Qnum Qden]. simpl.
  match goal with |- ?a ÷ 2 = _ =>
    replace a with ((t0 + 1800000) * 2) by lia end.
  apply Z.quot_mul. lia.
Qed.

(** C9.  On the two points [(t0, 1)] and [(t0 + 3600000, -1)] the
    interpolator returns the first point as a gap, the crossing point
    [(t0 + 1800000, 0)] and the last point. *)
Theorem zero_crossing_midpoint (t0 : Z) :
  buildReverseFlowSeries [t0; t0 + 3600000] [1%Q; (-1)%Q]
  = Some ([Some t0; Some (t0 + 1800000); Some (t0 + 3600000)],
          [None; Some 0%Q; Some (-1)%Q]).
Proof.
  unfold buildReverseFlowSeries. cbv zeta.
  change (Z.of_nat (length [t0; t0 + 3600000]) - 1) with 1.
  change (upto 1) with [0].
  cbn [reverseFlowLoop]. unfold reverseFlowStep.
  change (get [t0; t0 + 3600000] 0) with (Some t0).
  change (get [t0; t0 + 3600000] (0 + 1)) with (Some (t0 + 3600000)).
  change (get [t0; t0 + 3600000] 1) with (Some (t0 + 3600000)).
  change (get [1%Q; (-1)%Q] 0) with (Some 1%Q).
  change (get [1%Q; (-1)%Q] (0 + 1)) with (Some (-1)%Q).
  change (get [1%Q; (-1)%Q] 1) with (Some (-1)%Q).
  cbv iota beta zeta.
  change (Qle_bool 1 0 && Qltb 0 (-1) || Qltb 0 1 && Qle_bool (-1) 0) with true.
  change (Qeq_bool (-1) 1) with false.
  cbn [andb negb app].
  rewrite crossing_time. reflexivity.
Qed.

Lemma reverseFlowLoop_total (x : list Z) (y : list Q) (idx : list Z) :
  (forall i, In i idx -> 0 <= i /\ i + 1 < Z.of_nat (length x)) ->
  forall out, exists out', reverseFlowLoop x y idx out = Some out'.
Proof.
  induction idx as [|i rest IH]; intros Hidx out; simpl.
  - now exists out.
  - assert (Hstep : exists out1, reverseFlowStep x y out i = Some out1).
    { destruct (Hidx i (or_introl eq_refl)) as [H0 H1].
      destruct out as [xOut yOut]. unfold reverseFlowStep.
      assert (Hx0 : exists t0, get x i = Some t0).
      { unfold get. destruct (i <? 0) eqn:E; [lia|].
        destruct (nth_error x (Z.to_nat i)) eqn:N; [eauto|].
        apply nth_error_None in N. lia. }
      assert (Hx1 : exists t1, get x (i + 1) = Some t1).
      { unfold get. destruct (i + 1 <? 0) eqn:E; [lia|].
        destruct (nth_error x (Z.to_nat (i + 1))) eqn:N; [eauto|].
        apply nth_error_None in N. lia. }
      destruct Hx0 as [t0 ->], Hx1 as [t1 ->].
      destruct (get y i) as [b0|]; [|eauto].
      destruct (get y (i + 1)) as [b1|]; [|eauto].
      cbv zeta.
      destruct ((Qle_bool b0 0 && Qltb 0 b1 || Qltb 0 b0 && Qle_bool b1 0)
                && negb (Qeq_bool b1 b0)); eauto. }
    destruct Hstep as [out1 ->]. apply IH.
    intros j Hj. apply Hidx. now right.
Qed.

(** The interpolator returns a series on every input: [getTime] is only
    called on array elements. *)
Lemma buildReverseFlowSeries_total (x : list Z) (y : list Q) :
  exists out, buildReverseFlowSeries x y = Some out.
Proof.
  unfold buildReverseFlowSeries.
  destruct (reverseFlowLoop_total x y (upto (Z.of_nat (length x) - 1))) 
    with (out := (@nil (option Z), @nil (option Q))) as [[xOut yOut] ->].
  - intros i Hi. apply In_upto in Hi. lia.
  - eauto.
Qed.

(** The monthly aggregation over an empty solar series or an empty load
    series returns 12 entries of production 0 and curtailment 0. *)
Lemma empty_series_monthly_zero (getMonth : Z -> Z)
  (loadData : list LoadData.t) (solarData : list SolarData.t)
  (solarSize thermalLimit : Q) :
  loadData = [] \/ solarData = [] ->
  let stats :=
    calculateMonthlyStats getMonth loadData solarData solarSize thermalLimit in
  length stats = 12%nat /\
  forall st, In st stats -> productionMWh st = 0%Q /\ curtailmentMWh st = 0%Q.
Proof.
  intros Hempty stats. split; [reflexivity|].
  intros st Hin. apply stats_entry in Hin.
  destruct Hin as [m [_ [_ [-> ->]]]].
  apply (monthTotals_invariant getMonth loadData solarData solarSize
           thermalLimit (fun acc => fst acc = 0%Q /\ snd acc = 0%Q)).
  - split; reflexivity.
  - intros acc s Hs Hacc. destruct Hempty as [-> | ->]; [|destruct Hs].
    rewrite unmatched_accumulate by reflexivity. exact Hacc.
Qed.

(** C5, at the input on which the code departs from the claim: on an empty
    input the interpolator returns one point, [undefined] with value [null],
    not an empty series. *)
Theorem reverseFlow_empty_input :
  buildReverseFlowSeries [] [] = Some ([None], [None]) /\
  buildReverseFlowSeries [] [] <> Some ([], []).
Proof.
  split; [reflexivity | discriminate].
Qed.

(** * Further properties of the plot helpers *)

Lemma get_of_nat {A : Type} (a : list A) (k : nat) :
  get a (Z.of_nat k) = nth_error a k.
Proof.
  unfold get. destruct (Z.of_nat k <? 0) eqn:E; [apply Z.ltb_lt in E; lia|].
  rewrite Nat2Z.id. reflexivity.
Qed.

(** ** Closed form of the interpolator *)

Lemma get_in_range {A : Type} (a : list A) (i : Z) :
  0 <= i < Z.of_nat (length a) -> exists v, get a i = Some v.
Proof.
  intros Hi. unfold get. destruct (i <? 0) eqn:E; [lia|].
  destruct (nth_error a (Z.to_nat i)) eqn:N; [eauto|].
  apply nth_error_None in N. lia.
Qed.

Lemma reverseFlowStep_emitted (x : list Z) (y : list Q) (xo : list (option Z))
  (yo : list (option Q)) (i : Z) :
  0 <= i -> i + 1 < Z.of_nat (length x) ->
  reverseFlowStep x y (xo, yo) i
  = Some (xo ++ fst (emitted x y i), yo ++ snd (emitted x y i)).
Proof.
  intros H0 H1.
  destruct (get_in_range x i ltac:(lia)) as [t0 E0].
  destruct (get_in_range x (i + 1) ltac:(lia)) as [t1 E1].
  unfold reverseFlowStep, emitted. rewrite E0, E1.
  destruct (get y i) as [b0|]; [|reflexivity].
  destruct (get y (i + 1)) as [b1|]; [|reflexivity].
  unfold crossesZero, crossingTime. cbv zeta.
  destruct ((Qle_bool b0 0 && Qltb 0 b1 || Qltb 0 b0 && Qle_bool b1 0)
            && negb (Qeq_bool b1 b0)); cbn [fst snd];
    rewrite <- ?app_assoc; reflexivity.
Qed.

Lemma reverseFlowLoop_emitted (x : list Z) (y : list Q) (idx : list Z) :
  (forall i, In i idx -> 0 <= i /\ i + 1 < Z.of_nat (length x)) ->
  forall xo yo,
    reverseFlowLoop x y idx (xo, yo)
    = Some (xo ++ flat_map (fun i => fst (emitted x y i)) idx,
            yo ++ flat_map (fun i => snd (emitted x y i)) idx).
Proof.
  induction idx as [|i rest IH]; intros Hidx xo yo; cbn [reverseFlowLoop flat_map].
  - rewrite !app_nil_r. reflexivity.
  - destruct (Hidx i (or_introl eq_refl)) as [H0 H1].
    rewrite reverseFlowStep_emitted by assumption.
    rewrite IH by (intros j Hj; apply Hidx; now right).
    rewrite <- !app_assoc. reflexivity.
Qed.

Lemma buildReverseFlowSeries_emitted (x : list Z) (y : list Q) :
  let last := Z.of_nat (length x) - 1 in
  buildReverseFlowSeries x y
  = Some (flat_map (fun i => fst (emitted x y i)) (upto last) ++ [get x last],
          flat_map (fun i => snd (emitted x y i)) (upto last)
          ++ [keepReverse (get y last)]).
Proof.
  intros last. unfold buildReverseFlowSeries. cbv zeta. fold last.
  rewrite reverseFlowLoop_emitted.
  - reflexivity.
  - intros i Hi. apply In_upto in Hi. lia.
Qed.

Lemma emitted_length (x : list Z) (y : list Q) (i : Z) :
  length (fst (emitted x y i)) = length (snd (emitted x y i)) /\
  (1 <= length (fst (emitted x y i)) <= 2)%nat.
Proof.
  unfold emitted.
  destruct (get x i), (get x (i + 1)), (get y i), (get y (i + 1));
    try (cbn; lia).
  destruct (crossesZero (Some q) (Some q0)); cbn; lia.
Qed.

Lemma flat_map_length_bounds {A B C : Type} (f : A -> list B)
  (g : A -> list C) (l : list A) :
  (forall a, length (f a) = length (g a) /\ (1 <= length (f a) <= 2)%nat) ->
  length (flat_map f l) = length (flat_map g l) /\
  (length l <= length (flat_map f l) <= 2 * length l)%nat.
Proof.
  intros H. induction l as [|a l [IH1 IH2]]; cbn [flat_map length].
  - split; lia.
  - rewrite !length_app. destruct (H a) as [E B']. split; lia.
Qed.

Lemma upto_length (n : Z) : length (upto n) = Z.to_nat n.
Proof. unfold upto. rewrite length_map, length_seq. reflexivity. Qed.

(** The two output arrays have the same length; an input of [n >= 1] points
    gives between [n] and [2n - 1] output points, and the empty input gives
    one. *)
Theorem reverseFlow_output_length (x : list Z) (y : list Q) :
  exists xOut yOut,
    buildReverseFlowSeries x y = Some (xOut, yOut) /\
    length xOut = length yOut /\
    (Nat.max 1 (length x) <= length xOut <= Nat.max 1 (2 * length x - 1))%nat.
Proof.
  rewrite buildReverseFlowSeries_emitted. cbv zeta.
  eexists. eexists. split; [reflexivity|].
  rewrite !length_app. cbn [length].
  destruct (flat_map_length_bounds
              (fun i => fst (emitted x y i)) (fun i => snd (emitted x y i))
              (upto (Z.of_nat (length x) - 1)) (emitted_length x y)) as [E B'].
  rewrite upto_length in B'. split; lia.
Qed.

Lemma keepReverse_notPositive (v : option Q) : notPositive (keepReverse v).
Proof.
  unfold keepReverse, le0. destruct v as [q|]; [|exact I].
  destruct (Qle_bool q 0) eqn:E; [|exact I].
  apply Qle_bool_iff in E. exact E.
Qed.

Lemma emitted_notPositive (x : list Z) (y : list Q) (i : Z) :
  Forall notPositive (snd (emitted x y i)).
Proof.
  unfold emitted.
  destruct (get x i), (get x (i + 1)), (get y i) as [b0|], (get y (i + 1)) as [b1|];
    try (cbn [snd]; repeat constructor; apply keepReverse_notPositive).
  destruct (crossesZero (Some b0) (Some b1)); cbn [snd];
    repeat constructor; try apply keepReverse_notPositive; cbn; lra.
Qed.

(** No value of the output is positive: every entry of [yOut] is [null] or
    a number [<= 0]. *)
Theorem reverseFlow_never_positive (x : list Z) (y : list Q) :
  exists xOut yOut,
    buildReverseFlowSeries x y = Some (xOut, yOut) /\
    Forall notPositive yOut.
Proof.
  rewrite buildReverseFlowSeries_emitted. cbv zeta.
  eexists. eexists. split; [reflexivity|].
  apply Forall_app. split.
  - apply Forall_flat_map. apply Forall_forall. intros i _.
    apply emitted_notPositive.
  - repeat constructor. apply keepReverse_notPositive.
Qed.

Lemma upto_snoc (n : Z) : 0 <= n -> upto (n + 1) = upto n ++ [n].
Proof.
  intros Hn. unfold upto.
  replace (Z.to_nat (n + 1)) with (S (Z.to_nat n)) by lia.
  rewrite seq_S, map_app. cbn [map Nat.add]. rewrite Z2Nat.id by lia.
  reflexivity.
Qed.

Lemma map_nth_error_seq {A : Type} (a pre : list A) :
  map (nth_error (pre ++ a)) (seq (length pre) (length a)) = map Some a.
Proof.
  revert pre. induction a as [|v a IH]; intros pre; cbn [length seq map].
  - reflexivity.
  - rewrite nth_error_app2 by lia. rewrite Nat.sub_diag. cbn [nth_error].
    f_equal.
    replace (pre ++ v :: a) with ((pre ++ [v]) ++ a)
      by (rewrite <- app_assoc; reflexivity).
    replace (S (length pre)) with (length (pre ++ [v]))
      by (rewrite length_app; cbn; lia).
    apply IH.
Qed.

Lemma map_get_upto {A : Type} (a : list A) :
  map (get a) (upto (Z.of_nat (length a))) = map Some a.
Proof.
  unfold upto. rewrite Nat2Z.id, map_map.
  rewrite <- (map_nth_error_seq a []). cbn [app length].
  apply map_ext. intros k. unfold get.
  destruct (Z.of_nat k <? 0) eqn:E; [apply Z.ltb_lt in E; lia|].
  rewrite Nat2Z.id. reflexivity.
Qed.

Lemma flat_map_singleton {A B : Type} (f : A -> list B) (g : A -> B)
  (l : list A) :
  (forall a, In a l -> f a = [g a]) -> flat_map f l = map g l.
Proof.
  induction l as [|a l IH]; intros H; cbn [flat_map map]; [reflexivity|].
  rewrite (H a) by now left. rewrite IH by (intros; apply H; now right).
  reflexivity.
Qed.

Lemma emitted_no_crossing (x : list Z) (y : list Q) (i : Z) :
  crossesZero (get y i) (get y (i + 1)) = false ->
  emitted x y i = ([get x i], [keepReverse (get y i)]).
Proof.
  intros H. unfold emitted.
  destruct (get x i), (get x (i + 1)), (get y i), (get y (i + 1));
    try reflexivity.
  rewrite H. reflexivity.
Qed.

(** Without a sign change between neighbours no point is inserted. *)
Lemma reverseFlow_no_crossing (x : list Z) (y : list Q) :
  x <> [] ->
  (forall i, 0 <= i -> i + 1 < Z.of_nat (length x) ->
             crossesZero (get y i) (get y (i + 1)) = false) ->
  buildReverseFlowSeries x y
  = Some (map Some x,
          map (fun i => keepReverse (get y i)) (upto (Z.of_nat (length x)))).
Proof.
  intros Hx Hno. rewrite buildReverseFlowSeries_emitted. cbv zeta.
  assert (Hn : 0 <= Z.of_nat (length x) - 1).
  { destruct x; [contradiction|]. cbn [length]. lia. }
  rewrite (flat_map_singleton _ (get x)), (flat_map_singleton _
             (fun i => keepReverse (get y i))).
  - assert (Hup : upto (Z.of_nat (length x))
                  = upto (Z.of_nat (length x) - 1) ++ [Z.of_nat (length x) - 1]).
    { rewrite <- upto_snoc by exact Hn. f_equal. lia. }
    rewrite <- (map_get_upto x), Hup, !map_app. reflexivity.
  - intros i Hi. apply In_upto in Hi.
    rewrite emitted_no_crossing by (apply Hno; lia). reflexivity.
  - intros i Hi. apply In_upto in Hi.
    rewrite emitted_no_crossing by (apply Hno; lia). reflexivity.
Qed.

Lemma get_map {A B : Type} (f : A -> B) (a : list A) (i : Z) :
  get (map f a) i = option_map f (get a i).
Proof.
  unfold get. destruct (i <? 0); [reflexivity|]. apply nth_error_map.
Qed.

Lemma get_In {A : Type} (a : list A) (i : Z) (v : A) :
  get a i = Some v -> In v a.
Proof.
  unfold get. destruct (i <? 0); [discriminate|]. apply nth_error_In.
Qed.

(** A series that is in reverse flow throughout ([y <= 0] at every point)
    comes back unchanged: no point is dropped and none is inserted. *)
Theorem reverseFlow_identity_on_reverse_flow (x : list Z) (y : list Q) :
  x <> [] -> length y = length x ->
  (forall v, In v y -> (v <= 0)%Q) ->
  buildReverseFlowSeries x y = Some (map Some x, map Some y).
Proof.
  intros Hx Hlen Hy. rewrite reverseFlow_no_crossing.
  - rewrite <- Hlen, <- (map_get_upto y). f_equal. f_equal.
    apply map_ext. intros i. unfold keepReverse, le0.
    destruct (get y i) as [b|] eqn:E; [|reflexivity].
    rewrite (proj2 (Qle_bool_iff b 0)); [reflexivity|].
    apply Hy. eapply get_In; eassumption.
  - exact Hx.
  - intros i _ _. unfold crossesZero.
    destruct (get y i) as [b0|] eqn:E0; [|reflexivity].
    destruct (get y (i + 1)) as [b1|] eqn:E1; [|reflexivity].
    rewrite (proj2 (Qltb_false 0 b1)) by (apply Hy; eapply get_In; eassumption).
    rewrite (proj2 (Qltb_false 0 b0)) by (apply Hy; eapply get_In; eassumption).
    rewrite andb_false_r. reflexivity.
Qed.

Lemma reverseFlow_identity_on_reverse_flow_witness :
  buildReverseFlowSeries [0; 3600000] [(-1)%Q; (-2)%Q]
  = Some ([Some 0; Some 3600000], [Some (-1)%Q; Some (-2)%Q]).
Proof.
  apply (reverseFlow_identity_on_reverse_flow [0; 3600000] [(-1)%Q; (-2)%Q]).
  - discriminate.
  - reflexivity.
  - intros v [<-|[<-|[]]]; vm_compute; discriminate.
Defined.

Lemma map_const_length {A B C : Type} (c : C) (l1 : list A) (l2 : list B) :
  length l1 = length l2 ->
  map (fun _ => c) l1 = map (fun _ => c) l2.
Proof.
  revert l2. induction l1 as [|a l1 IH]; intros [|b l2] H;
    try discriminate; cbn [map]; [reflexivity|].
  f_equal. apply IH. cbn [length] in H. lia.
Qed.

(** A series that never reaches reverse flow ([y > 0] at every point) gives
    the input timestamps with a gap at each of them. *)
Theorem reverseFlow_all_gaps_on_forward_flow (x : list Z) (y : list Q) :
  x <> [] ->
  (forall v, In v y -> (0 < v)%Q) ->
  buildReverseFlowSeries x y = Some (map Some x, map (fun _ => None) x).
Proof.
  intros Hx Hy. rewrite reverseFlow_no_crossing.
  - f_equal. f_equal.
    transitivity (map (fun _ : Z => @None Q) (upto (Z.of_nat (length x)))).
    + apply map_ext. intros i. unfold keepReverse, le0.
      destruct (get y i) as [b|] eqn:E; [|reflexivity].
      destruct (Qle_bool b 0) eqn:L; [|reflexivity].
      apply Qle_bool_iff in L.
      pose proof (Hy b (get_In _ _ _ E)). lra.
    + apply map_const_length. rewrite upto_length. lia.
  - exact Hx.
  - intros i _ _. unfold crossesZero.
    destruct (get y i) as [b0|] eqn:E0; [|reflexivity].
    destruct (get y (i + 1)) as [b1|] eqn:E1; [|reflexivity].
    rewrite (proj2 (Qltb_true 0 b1)) by (apply Hy; eapply get_In; eassumption).
    rewrite (proj2 (Qltb_true 0 b0)) by (apply Hy; eapply get_In; eassumption).
    destruct (Qle_bool b0 0) eqn:L0.
    { apply Qle_bool_iff in L0. pose proof (Hy b0 (get_In _ _ _ E0)). lra. }
    destruct (Qle_bool b1 0) eqn:L1.
    { apply Qle_bool_iff in L1. pose proof (Hy b1 (get_In _ _ _ E1)). lra. }
    reflexivity.
Qed.

Lemma reverseFlow_all_gaps_on_forward_flow_witness :
  buildReverseFlowSeries [0; 3600000] [1%Q; 2%Q]
  = Some ([Some 0; Some 3600000], [None; None]).
Proof.
  apply (reverseFlow_all_gaps_on_forward_flow [0; 3600000] [1%Q; 2%Q]).
  - discriminate.
  - intros v [<-|[<-|[]]]; vm_compute; reflexivity.
Defined.

(** ** Number of inserted crossing points *)





(** ** Production and the thermal limit *)

Lemma accumulate_production_mono loadData size t1 t2 acc1 acc2 s :
  (t2 <= t1)%Q ->
  (fst acc1 <= fst acc2)%Q ->
  (fst (accumulate loadData size t1 acc1 s)
   <= fst (accumulate loadData size t2 acc2 s))%Q.
Proof.
  intros Ht Hacc. destruct acc1 as [p1 c1], acc2 as [p2 c2].
  cbn [fst] in Hacc. unfold accumulate.
  destruct (matchingLoad loadData s) as [l|]; cbn [fst]; [|exact Hacc].
  destruct (Qmin_cases (SolarData.ac_kw_per_kwdc s * size)
                       (LoadData.net_load_mw l - t2)) as [[H2 ->]|[H2 ->]];
  destruct (Qmin_cases (SolarData.ac_kw_per_kwdc s * size)
                       (LoadData.net_load_mw l - t1)) as [[H1 ->]|[H1 ->]];
  lra.
Qed.

(** Making the thermal limit more negative never decreases the total
    production of the year. *)
Theorem production_monotone (getMonth : Z -> Z)
  (loadData : list LoadData.t) (solarData : list SolarData.t)
  (solarSize thermalLimit thermalLimit' : Q) :
  (thermalLimit' <= thermalLimit)%Q ->
  (totalProduction
     (calculateMonthlyStats getMonth loadData solarData solarSize thermalLimit)
   <= totalProduction
        (calculateMonthlyStats getMonth loadData solarData solarSize thermalLimit'))%Q.
Proof.
  intros Ht. rewrite !totalProduction_stats.
  apply Qsum_le. intros m _. unfold monthTotals.
  apply (fold_left_related (fun a1 a2 => (fst a1 <= fst a2)%Q)).
  - intros a1 a2 s _ Hacc. unfold monthStep.
    destruct (getMonth (SolarData.timestamp s) =? m); [|exact Hacc].
    apply accumulate_production_mono; assumption.
  - cbn. lra.
Qed.

Lemma production_monotone_witness :
  (totalProduction (calculateMonthlyStats getUTCMonth load7 solar7 3 (-10 # 1))
   <= totalProduction
        (calculateMonthlyStats getUTCMonth load7 solar7 3 (-12 # 1)))%Q.
Proof.
  apply (production_monotone getUTCMonth load7 solar7 3 (-10 # 1) (-12 # 1)).
  vm_compute. discriminate.
Defined.

(** ** [Math.min] over an array *)

Lemma fold_left_Qmin_spec (rest : list Q) :
  forall x,
    let v := fold_left Qmin rest x in
    In v (x :: rest) /\ forall u, In u (x :: rest) -> (v <= u)%Q.
Proof.
  induction rest as [|y rest IH]; intros x; cbn [fold_left].
  - split; [now left|]. intros u [<-|[]]. lra.
  - destruct (IH (Qmin x y)) as [Hin Hle]. cbv zeta in *.
    destruct (Qmin_cases x y) as [[Hxy E]|[Hxy E]]; rewrite E in *.
    + split.
      * destruct Hin as [<-|Hin]; [now left | right; now right].
      * intros u [<-|[<-|Hu]].
        -- apply Hle. now left.
        -- assert (fold_left Qmin rest x <= x)%Q by (apply Hle; now left). lra.
        -- apply Hle. now right.
    + split.
      * destruct Hin as [<-|Hin]; [right; now left | right; now right].
      * intros u [<-|[<-|Hu]].
        -- assert (fold_left Qmin rest y <= y)%Q by (apply Hle; now left). lra.
        -- apply Hle. now left.
        -- apply Hle. now right.
Qed.

Lemma mathMin_spec (xs : list Q) :
  xs <> [] ->
  exists v, mathMin xs = Finite v /\ In v xs /\
            forall u, In u xs -> (v <= u)%Q.
Proof.
  destruct xs as [|x rest]; [contradiction|]. intros _.
  exists (fold_left Qmin rest x). split; [reflexivity|].
  apply fold_left_Qmin_spec.
Qed.

(** A plant sized at the minimum hosting capacity of the year is never
    curtailed, when that capacity is not negative and the per-unit output
    of every sample is in [0, 1]: the curtailed energy and the percentage
    of the first bar are 0. *)
Theorem worst_hour_sized_plant_never_curtailed (loadData : list LoadData.t)
  (solarData : list SolarData.t) (THERMAL_LIMIT c : Q) :
  minCapacity loadData THERMAL_LIMIT = Finite c ->
  (0 <= c)%Q ->
  (forall s, In s solarData ->
             (0 <= SolarData.ac_kw_per_kwdc s <= 1)%Q) ->
  (snd (annualTotals loadData solarData c THERMAL_LIMIT) == 0)%Q /\
  exists q, pctCurt (annualGWh loadData solarData c THERMAL_LIMIT) = Finite q /\
            (q == 0)%Q.
Proof.
  intros Hmin Hc Hac.
  assert (Hcap : forall l, In l loadData ->
                           (c <= LoadData.net_load_mw l - THERMAL_LIMIT)%Q).
  { intros l Hl. unfold minCapacity in Hmin.
    destruct loadData as [|l0 rest]; [destruct Hl|].
    destruct (mathMin_spec
                (map (fun d => (LoadData.net_load_mw d - THERMAL_LIMIT)%Q)
                     (l0 :: rest)) ltac:(discriminate)) as [v [E [_ Hle]]].
    rewrite E in Hmin. injection Hmin as <-.
    apply Hle. apply (in_map (fun d => (LoadData.net_load_mw d - THERMAL_LIMIT)%Q)).
    exact Hl. }
  assert (Hzero : (snd (annualTotals loadData solarData c THERMAL_LIMIT) == 0)%Q).
  { unfold annualTotals.
    apply (fold_left_invariant (fun acc => (snd acc == 0)%Q)).
    - intros [p cu] s Hs H0. cbn [snd] in H0. unfold accumulate.
      destruct (matchingLoad loadData s) as [l|] eqn:E; cbn [snd]; [|exact H0].
      assert (Hl : In l loadData).
      { unfold matchingLoad in E. apply find_some in E. tauto. }
      specialize (Hcap l Hl). destruct (Hac s Hs) as [A0 A1].
      assert (Hraw : (SolarData.ac_kw_per_kwdc s * c <= 1 * c)%Q)
        by (apply Qmult_le_compat_r; assumption).
      destruct (Qmin_cases (SolarData.ac_kw_per_kwdc s * c)
                           (LoadData.net_load_mw l - THERMAL_LIMIT))
        as [[H ->]|[H ->]]; lra.
    - reflexivity. }
  split; [exact Hzero|].
  unfold annualGWh.
  destruct (annualTotals loadData solarData c THERMAL_LIMIT) as [P C].
  cbn [snd] in Hzero. unfold pctCurt.
  destruct (Qltb 0 (P / 1000 + C / 1000)) eqn:E.
  - apply Qltb_true in E. unfold jsdiv.
    destruct (Qeq_bool (P / 1000 + C / 1000) 0) eqn:E0.
    { apply Qeq_bool_iff in E0. lra. }
    eexists. split; [reflexivity|]. rewrite Hzero. unfold Qdiv. lra.
  - exists 0%Q. split; reflexivity.
Qed.

Lemma worst_hour_sized_plant_never_curtailed_witness :
  (snd (annualTotals load7 solar7 1 (-13 # 1)) == 0)%Q /\
  exists q, pctCurt (annualGWh load7 solar7 1 (-13 # 1)) = Finite q /\
            (q == 0)%Q.
Proof.
  apply (worst_hour_sized_plant_never_curtailed load7 solar7 (-13 # 1) 1).
  - vm_compute. reflexivity.
  - vm_compute. discriminate.
  - intros s Hs. simpl in Hs.
    repeat (destruct Hs as [<-|Hs]; [vm_compute; split; discriminate|]).
    destruct Hs.
Defined.

(** ** The annotated worst hour *)




(** ** The multi-day series *)

(** [findIndex] over the timestamps finds the position of the load point
    that [find] returns. *)
Lemma findIndexFrom_find {A B : Type} (f : A -> B) (p : B -> bool)
  (data : list A) :
  forall i,
    match find (fun l => p (f l)) data with
    | Some l => exists k, findIndexFrom p (map f data) i = i + Z.of_nat k /\
                          nth_error data k = Some l
    | None => findIndexFrom p (map f data) i = -1
    end.
Proof.
  induction data as [|d data IH]; intros i; cbn [find map findIndexFrom].
  - reflexivity.
  - destruct (p (f d)).
    + exists 0%nat. split; [cbn; lia | reflexivity].
    + specialize (IH (i + 1)).
      destruct (find (fun l => p (f l)) data) as [l|]; [|exact IH].
      destruct IH as [k [Hk Hn]]. exists (S k). split; [lia | exact Hn].
Qed.

Lemma clipToCapacity_matchingLoad (data : list LoadData.t) (thermalLimit : Q)
  (output : Q) (sp : SolarData.t) :
  clipToCapacity (map LoadData.timestamp data)
                 (map (fun d => (LoadData.net_load_mw d - thermalLimit)%Q) data)
                 output sp
  = match matchingLoad data sp with
    | Some l => Finite (Qmin output (LoadData.net_load_mw l - thermalLimit))
    | None => Finite output
    end.
Proof.
  unfold clipToCapacity, findIndex, matchingLoad. cbv zeta.
  pose proof (findIndexFrom_find LoadData.timestamp
                (fun t => Z.abs (t - SolarData.timestamp sp) <? 3600000)
                data 0) as H.
  cbv beta in H.
  change (fun l => Z.abs (LoadData.timestamp l - SolarData.timestamp sp)
                   <? 3600000) with (withinTolerance sp) in H.
  destruct (find (withinTolerance sp) data) as [l|].
  - destruct H as [k [-> Hk]]. cbn [Z.add].
    destruct (0 <=? Z.of_nat k) eqn:E; [|apply Z.leb_gt in E; lia].
    rewrite get_of_nat, nth_error_map, Hk. reflexivity.
  - rewrite H. reflexivity.
Qed.

Lemma map_combine_map {A B C : Type} (g : A -> B) (F : B -> A -> C)
  (l : list A) :
  map (fun '(o, a) => F o a) (combine (map g l) l)
  = map (fun a => F (g a) a) l.
Proof.
  induction l as [|a l IH]; cbn [map combine]; [reflexivity|].
  rewrite IH. reflexivity.
Qed.

(** The series in closed form, on a window that is not empty. *)
Lemma multiDaySeries_Some (tenDayData : list LoadData.t)
  (solarData : list SolarData.t) (solarSize thermalLimit : Q) (r : MultiDay) :
  multiDaySeries tenDayData solarData solarSize thermalLimit = Some r ->
  solarOutputRaw r
  = map (fun s => (SolarData.ac_kw_per_kwdc s * solarSize)%Q)
        (solarForPeriod r) /\
  solarOutputFI r
  = map (fun s =>
           match matchingLoad tenDayData s with
           | Some l =>
               Finite (Qmin (SolarData.ac_kw_per_kwdc s * solarSize)
                            (LoadData.net_load_mw l - thermalLimit))
           | None => Finite (SolarData.ac_kw_per_kwdc s * solarSize)%Q
           end)
        (solarForPeriod r).
Proof.
  unfold multiDaySeries. cbv zeta.
  destruct (get (map LoadData.timestamp tenDayData) 0) as [first|];
    [|discriminate].
  destruct (get (map LoadData.timestamp tenDayData)
              (Z.of_nat (length (map LoadData.timestamp tenDayData)) - 1))
    as [last|]; [|discriminate].
  intros [= <-]. cbn [solarOutputRaw solarOutputFI solarForPeriod].
  split; [reflexivity|].
  rewrite (map_combine_map
             (fun s => (SolarData.ac_kw_per_kwdc s * solarSize)%Q)
             (clipToCapacity (map LoadData.timestamp tenDayData)
                (map (fun d => (LoadData.net_load_mw d - thermalLimit)%Q)
                     tenDayData))).
  apply map_ext. intros s. apply clipToCapacity_matchingLoad.
Qed.

(** The multi-day series raise exactly when the load window is empty. *)
Theorem multiDaySeries_throws_iff_empty (tenDayData : list LoadData.t)
  (solarData : list SolarData.t) (solarSize thermalLimit : Q) :
  multiDaySeries tenDayData solarData solarSize thermalLimit = None
  <-> tenDayData = [].
Proof.
  split; [|intros ->; reflexivity].
  destruct tenDayData as [|d rest]; [reflexivity|]. intros H. exfalso.
  unfold multiDaySeries in H. cbv zeta in H.
  change (get (map LoadData.timestamp (d :: rest)) 0)
    with (Some (LoadData.timestamp d)) in H.
  rewrite length_map in H. cbn [length] in H.
  replace (Z.of_nat (S (length rest)) - 1) with (Z.of_nat (length rest)) in H
    by lia.
  rewrite get_of_nat in H.
  destruct (nth_error (map LoadData.timestamp (d :: rest)) (length rest))
    eqn:E; [discriminate|].
  apply nth_error_None in E. rewrite length_map in E. cbn [length] in E. lia.
Qed.

Lemma multiDaySeries_throws_iff_empty_witness :
  multiDaySeries [] solar7 3 (-10 # 1) = None /\
  multiDaySeries load7 solar7 3 (-10 # 1) <> None.
Proof.
  split.
  - apply (proj2 (multiDaySeries_throws_iff_empty [] solar7 3 (-10 # 1))).
    reflexivity.
  - intros H.
    apply (proj1 (multiDaySeries_throws_iff_empty load7 solar7 3 (-10 # 1))) in H.
    discriminate H.
Defined.

(** The firm output drawn for a sample is a finite number (the capacity
    read is never [undefined]) and is at most the raw output of the
    sample. *)
Theorem multiDay_firm_at_most_raw (tenDayData : list LoadData.t)
  (solarData : list SolarData.t) (solarSize thermalLimit : Q) (r : MultiDay) :
  multiDaySeries tenDayData solarData solarSize thermalLimit = Some r ->
  Forall2 (fun raw fi => exists v, fi = Finite v /\ (v <= raw)%Q)
          (solarOutputRaw r) (solarOutputFI r).
Proof.
  intros H. destruct (multiDaySeries_Some _ _ _ _ _ H) as [-> ->].
  induction (solarForPeriod r) as [|s l IH]; cbn [map]; constructor.
  - destruct (matchingLoad tenDayData s) as [ld|].
    + eexists. split; [reflexivity|]. apply Q.le_min_l.
    + eexists. split; [reflexivity|]. lra.
  - exact IH.
Qed.

Lemma multiDay_firm_at_most_raw_witness :
  match multiDaySeries load7 solar7 3 (-10 # 1) with
  | Some r =>
      Forall2 (fun raw fi => exists v, fi = Finite v /\ (v <= raw)%Q)
              (solarOutputRaw r) (solarOutputFI r)
  | None => False
  end.
Proof.
  destruct (multiDaySeries load7 solar7 3 (-10 # 1)) as [r|] eqn:E.
  - apply (multiDay_firm_at_most_raw load7 solar7 3 (-10 # 1) r E).
  - vm_compute in E. discriminate E.
Defined.

(** The gap between the raw and the firm curve at a sample is the
    curtailment that the aggregator books for that sample against the same
    load window; for a sample without a load point in tolerance both are
    0. *)
Theorem multiDay_curtailed_area_is_booked_curtailment
  (tenDayData : list LoadData.t) (solarData : list SolarData.t)
  (solarSize thermalLimit : Q) (r : MultiDay) :
  multiDaySeries tenDayData solarData solarSize thermalLimit = Some r ->
  Forall2 (fun s fi =>
             exists v, fi = Finite v /\
               (SolarData.ac_kw_per_kwdc s * solarSize - v
                == snd (accumulate tenDayData solarSize thermalLimit
                                   (0%Q, 0%Q) s))%Q)
          (solarForPeriod r) (solarOutputFI r).
Proof.
  intros H. destruct (multiDaySeries_Some _ _ _ _ _ H) as [_ ->].
  induction (solarForPeriod r) as [|s l IH]; cbn [map]; constructor.
  - unfold accumulate. destruct (matchingLoad tenDayData s) as [ld|];
      eexists; (split; [reflexivity|]); cbn [snd]; lra.
  - exact IH.
Qed.

Lemma multiDay_curtailed_area_is_booked_curtailment_witness :
  match multiDaySeries load7 solar7 3 (-10 # 1) with
  | Some r =>
      Forall2 (fun s fi =>
                 exists v, fi = Finite v /\
                   (SolarData.ac_kw_per_kwdc s * 3 - v
                    == snd (accumulate load7 3 (-10 # 1) (0%Q, 0%Q) s))%Q)
              (solarForPeriod r) (solarOutputFI r)
  | None => False
  end.
Proof.
  destruct (multiDaySeries load7 solar7 3 (-10 # 1)) as [r|] eqn:E.
  - apply (multiDay_curtailed_area_is_booked_curtailment
             load7 solar7 3 (-10 # 1) r E).
  - vm_compute in E. discriminate E.
Defined.

(** ** Date windows *)

(** Taking a day out of the data of a week gives the same points as taking
    the day out of the full series, when the day lies inside the week. *)
Theorem filterDataByDate_nested (setHours : Z -> Z -> Z -> Z -> Z)
  (data : list LoadData.t) (weekStart weekEnd day : Z) :
  setHours weekStart 0 0 0 <= setHours day 0 0 0 ->
  setHours day 23 59 59 <= setHours weekEnd 23 59 59 ->
  filterDataByDate setHours
    (filterDataByDate setHours data weekStart (Some weekEnd)) day None
  = filterDataByDate setHours data day None.
Proof.
  intros Hs He. unfold filterDataByDate. cbv zeta.
  induction data as [|d data IH]; cbn [filter]; [reflexivity|].
  destruct ((setHours day 0 0 0 <=? LoadData.timestamp d)
            && (LoadData.timestamp d <=? setHours day 23 59 59)) eqn:Ed.
  - apply andb_true_iff in Ed. destruct Ed as [E1 E2].
    apply Z.leb_le in E1. apply Z.leb_le in E2.
    rewrite (proj2 (Z.leb_le _ _)) by lia.
    rewrite (proj2 (Z.leb_le (LoadData.timestamp d) _)) by lia.
    cbn [andb filter].
    rewrite (proj2 (Z.leb_le _ _) E1), (proj2 (Z.leb_le _ _) E2).
    cbn [andb]. f_equal. exact IH.
  - destruct ((setHours weekStart 0 0 0 <=? LoadData.timestamp d)
              && (LoadData.timestamp d <=? setHours weekEnd 23 59 59));
      [|exact IH].
    cbn [filter]. rewrite Ed. exact IH.
Qed.

Lemma filterDataByDate_nested_witness :
  filterDataByDate setUTCHours
    (filterDataByDate setUTCHours load7 0 (Some 518400000)) 0 None
  = filterDataByDate setUTCHours load7 0 None.
Proof.
  apply (filterDataByDate_nested setUTCHours load7 0 518400000 0).
  - vm_compute. discriminate.
  - vm_compute. discriminate.
Defined.
